(** * Verification of the PUMP wallet monitor (src/src/wallet_monitor.rs)

    Shallow embedding of the event decoder, the position ledger
    ([update_holdings], [update_price]), the alert gate
    ([check_and_send_alert]) and the periodic snapshot task
    ([print_holdings] as spawned by [start_monitoring]).

    Numbers are modelled as the code has them: [u64] as [Z] in [0, 2^64),
    [f64] as Rocq's primitive IEEE-754 binary64 floats, [i32] as [Z]
    obtained with Rust's saturating float-to-int cast.  The two shared maps
    ([HashMap<String, TokenHolding>], [HashSet<String>]) are stdpp's
    [gmap] and [gset].  Network I/O and lock operations are recorded in a
    trace of events, so that what happens while a lock is held can be
    stated. *)

From Stdlib Require Import ZArith Floats Lia.
From stdpp Require Import base gmap strings list.

Local Open Scope Z_scope.

(* ------------------------------------------------------------------ *)
(** ** Constants and machine arithmetic *)

Definition MIN_HOLDING_AMOUNT : Z := 10000.
Definition SOL_DECIMALS : nat := 9.
Definition TOKEN_DECIMALS : nat := 6.

Definition U64_MAX : Z := 2 ^ 64 - 1.
Definition I32_MIN : Z := - 2 ^ 31.
Definition I32_MAX : Z := 2 ^ 31 - 1.

(** [u64::saturating_add] and [u64::saturating_sub]. *)
Definition saturating_add (a b : Z) : Z := Z.min (a + b) U64_MAX.
Definition saturating_sub (a b : Z) : Z := Z.max (a - b) 0.

(** [n as f64] for an [u64]: round to nearest, ties to even. *)
Definition u64_to_f64 (n : Z) : float :=
  SF2Prim (binary_normalize prec emax n 0 false).

(** [f64::powi] on a non-negative exponent, by repeated multiplication. *)
Fixpoint powi (x : float) (n : nat) : float :=
  match n with
  | O => 1%float
  | S k => (x * powi x k)%float
  end.

(** Truncation toward zero of a finite binary float [(-1)^s * m * 2^e]. *)
Definition trunc_finite (s : bool) (m : positive) (e : Z) : Z :=
  let z := if 0 <=? e then Z.shiftl (Zpos m) e else Z.shiftr (Zpos m) (- e) in
  if s then - z else z.

(** [x as i32] for an [f64]: truncation toward zero, saturating at the
    bounds of [i32], NaN mapped to 0 (Rust semantics since 1.45). *)
Definition f64_as_i32 (x : float) : Z :=
  match Prim2SF x with
  | S754_nan => 0
  | S754_zero _ => 0
  | S754_infinity s => if s then I32_MIN else I32_MAX
  | S754_finite s m e => Z.max I32_MIN (Z.min I32_MAX (trunc_finite s m e))
  end.

(* ------------------------------------------------------------------ *)
(** ** [TokenHolding] *)

Record TokenHolding := {
  amount : Z;            (* u64 *)
  mint : string;
  total_cost : float;    (* SOL spent *)
  current_price : float  (* latest price *)
}.

(** [(amount as f64) / 10f64.powi(TOKEN_DECIMALS)] *)
Definition actual_amount (raw : Z) : float :=
  (u64_to_f64 raw / powi 10 TOKEN_DECIMALS)%float.

(** [TokenHolding::new] *)
Definition TokenHolding_new (m : string) (a : Z) (price : float) : TokenHolding :=
  {| amount := a; mint := m;
     total_cost := (actual_amount a * price)%float;
     current_price := price |}.

(** [TokenHolding::avg_price] *)
Definition avg_price (h : TokenHolding) : float :=
  if amount h =? 0 then 0%float
  else (total_cost h / actual_amount (amount h))%float.

(** [TokenHolding::price_change_percentage] *)
Definition price_change_percentage (h : TokenHolding) : Z :=
  if PrimFloat.eqb (avg_price h) 0 then 0
  else f64_as_i32 ((current_price h - avg_price h) / avg_price h * 100)%float.

(** [TokenHolding::total_value] *)
Definition total_value (h : TokenHolding) : float :=
  (actual_amount (amount h) * current_price h)%float.

Definition set_current_price (p : float) (h : TokenHolding) : TokenHolding :=
  {| amount := amount h; mint := mint h; total_cost := total_cost h;
     current_price := p |}.

(* ------------------------------------------------------------------ *)
(** ** Event decoder: [decode_program_data] and [calculate_price] *)

(** [&data[i..j]] *)
Definition slice (i j : nat) (d : list Byte.byte) : list Byte.byte :=
  firstn (j - i) (skipn i d).

(** [u64::from_le_bytes] *)
Definition le_u64 (bs : list Byte.byte) : Z :=
  fold_right (fun b acc => Z.of_N (Byte.to_N b) + 256 * acc) 0 bs.

Section Decoder.
(** The two external codecs: [general_purpose::STANDARD.decode] of the
    [base64] crate and [bs58::encode(..).into_string()]. *)
Variable b64_decode : string -> option (list Byte.byte).
Variable bs58_encode : list Byte.byte -> string.

(** Result tuple [(mint, user, is_buy, sol_amount, token_amount)]. *)
Definition decode_program_data (data_str : string)
    : option (string * string * bool * Z * Z) :=
  match b64_decode data_str with
  | Some decoded_data =>
      if Nat.ltb (length decoded_data) 129 then None
      else
        let mint_ := bs58_encode (slice 8 40 decoded_data) in
        let pos := 40%nat in
        let sol_amount := le_u64 (slice pos (pos + 8) decoded_data) in
        let pos := (pos + 8)%nat in
        let token_amount := le_u64 (slice pos (pos + 8) decoded_data) in
        let pos := (pos + 8)%nat in
        let is_buy := negb (Byte.eqb (nth pos decoded_data Byte.x00) Byte.x00) in
        let pos := (pos + 1)%nat in
        let user := bs58_encode (slice pos (pos + 32) decoded_data) in
        Some (mint_, user, is_buy, sol_amount, token_amount)
  | None => None
  end.
End Decoder.

(** [WalletMonitor::calculate_price] *)
Definition calculate_price (sol_amount token_amount : Z) : float :=
  if token_amount =? 0 then 0%float
  else
    let sol := (u64_to_f64 sol_amount / powi 10 SOL_DECIMALS)%float in
    let tokens := (u64_to_f64 token_amount / powi 10 TOKEN_DECIMALS)%float in
    (sol / tokens)%float.

(* ------------------------------------------------------------------ *)
(** ** Shared state, locks and the trace of effects *)

(** The two [tokio::sync::Mutex]es of [WalletMonitor]. *)
Inductive Lock := LHoldings | LAlerted.

(** Observable effects of a ledger operation, in program order. *)
Inductive Event :=
| Acquire (l : Lock)                    (* [.lock().await] *)
| Release (l : Lock)                    (* guard dropped *)
| Checked (mnt : string) (h : TokenHolding)
                                        (* [check_and_send_alert] inspects [h] *)
| SendAlert (mnt : string) (ok : bool)  (* awaited [alert_service.send_alert];
                                           [ok] is the notifier's answer *)
| ErrorLogged (mnt : string).           (* [error!("Failed to send alert ...")] *)

Record Monitor := {
  holdings : gmap string TokenHolding;
  alerted_mints : gset string
}.

Definition empty_monitor : Monitor :=
  {| holdings := ∅; alerted_mints := ∅ |}.

(** [Result<()>] *)
Inductive result := Ok | Err.

(** Both guards taken at the top of [update_holdings] / [update_price]
    ([holdings] first), dropped in reverse order when the function returns. *)
Definition lock_all : list Event := [Acquire LHoldings; Acquire LAlerted].
Definition unlock_all : list Event := [Release LAlerted; Release LHoldings].

(** [if let Err(e) = self.check_and_send_alert(..).await { error!(..) }] *)
Definition log_err (r : result) (mnt : string) : list Event :=
  match r with Ok => [] | Err => [ErrorLogged mnt] end.

(* ------------------------------------------------------------------ *)
(** ** Alert gate: [check_and_send_alert] *)

(** [send_ok] is the outcome the notifier would return if called. *)
Definition check_and_send_alert (send_ok : bool) (mnt : string) (h : TokenHolding)
    (alerted : gset string) : result * gset string * list Event :=
  let price_change := price_change_percentage h in
  if 100 <? price_change then
    if bool_decide (mnt ∈ alerted) then (Ok, alerted, [Checked mnt h])
    else if send_ok then (Ok, {[mnt]} ∪ alerted, [Checked mnt h; SendAlert mnt true])
    else (Err, alerted, [Checked mnt h; SendAlert mnt false])
  else (Ok, alerted, [Checked mnt h]).

(* ------------------------------------------------------------------ *)
(** ** Position ledger: [update_holdings] *)

Definition update_holdings (send_ok : bool) (st : Monitor) (mnt : string)
    (is_buy : bool) (token_amount : Z) (price : float) : Monitor * list Event :=
  let hs := holdings st in
  let alerted := alerted_mints st in
  if is_buy then
    let holding := match hs !! mnt with
                   | Some h => h
                   | None => TokenHolding_new mnt 0 price
                   end in
    let holding' :=
      {| amount := saturating_add (amount holding) token_amount;
         mint := mint holding;
         total_cost := (total_cost holding + actual_amount token_amount * price)%float;
         current_price := price |} in
    let '(r, alerted', evs) := check_and_send_alert send_ok mnt holding' alerted in
    ({| holdings := <[mnt := holding']> hs; alerted_mints := alerted' |},
     lock_all ++ evs ++ log_err r mnt ++ unlock_all)
  else
    match hs !! mnt with
    | None => (st, lock_all ++ unlock_all)
    | Some holding =>
        let sell_ratio := (u64_to_f64 token_amount / u64_to_f64 (amount holding))%float in
        let holding' :=
          {| amount := saturating_sub (amount holding) token_amount;
             mint := mint holding;
             total_cost := (total_cost holding * (1 - sell_ratio))%float;
             current_price := price |} in
        let '(r, alerted', evs) := check_and_send_alert send_ok mnt holding' alerted in
        if amount holding' <? MIN_HOLDING_AMOUNT then
          ({| holdings := delete mnt hs; alerted_mints := alerted' ∖ {[mnt]} |},
           lock_all ++ evs ++ log_err r mnt ++ unlock_all)
        else
          ({| holdings := <[mnt := holding']> hs; alerted_mints := alerted' |},
           lock_all ++ evs ++ log_err r mnt ++ unlock_all)
    end.

(* ------------------------------------------------------------------ *)
(** ** Price propagation: [update_price] *)

(** [holding.amount as f64 / 1e6 < MIN_HOLDING_AMOUNT as f64] *)
Definition below_min_display (h : TokenHolding) : bool :=
  PrimFloat.ltb (u64_to_f64 (amount h) / 1e6)%float (u64_to_f64 MIN_HOLDING_AMOUNT).

Definition update_price (send_ok : bool) (st : Monitor) (mnt : string) (price : float)
    : Monitor * list Event :=
  let hs := holdings st in
  let alerted := alerted_mints st in
  if PrimFloat.eqb price 0 then (st, lock_all ++ unlock_all)
  else
    match hs !! mnt with
    | Some holding =>
        if below_min_display holding then
          ({| holdings := delete mnt hs; alerted_mints := alerted ∖ {[mnt]} |},
           lock_all ++ unlock_all)
        else
          let holding' := set_current_price price holding in
          let '(r, alerted', evs) := check_and_send_alert send_ok mnt holding' alerted in
          if below_min_display holding then
            ({| holdings := delete mnt hs; alerted_mints := alerted' ∖ {[mnt]} |},
             lock_all ++ evs ++ log_err r mnt ++ unlock_all)
          else
            ({| holdings := <[mnt := holding']> hs; alerted_mints := alerted' |},
             lock_all ++ evs ++ log_err r mnt ++ unlock_all)
    | None => (st, lock_all ++ unlock_all)
    end.

(* ------------------------------------------------------------------ *)
(** ** Periodic snapshot task *)

(** The pruning part of [print_holdings]: every holding whose display
    amount is below [MIN_HOLDING_AMOUNT] is removed from [holdings] and
    from [alerted_mints] (of the monitor it is called on). *)
Definition print_holdings (st : Monitor) : Monitor :=
  let to_remove :=
    map fst (List.filter (fun kv => below_min_display (snd kv))
                         (map_to_list (holdings st))) in
  fold_left (fun st' mnt =>
               {| holdings := delete mnt (holdings st');
                  alerted_mints := alerted_mints st' ∖ {[mnt]} |})
            to_remove st.

(** One tick of the task spawned by [start_monitoring]: it builds a
    [WalletMonitor] that shares [holdings] ([holdings_clone]) but owns a
    fresh [alerted_mints] ([Arc::new(Mutex::new(HashSet::new()))]), and
    calls [print_holdings] on it. *)
Definition snapshot_tick (st : Monitor) : Monitor :=
  let monitor := {| holdings := holdings st; alerted_mints := ∅ |} in
  let monitor' := print_holdings monitor in
  {| holdings := holdings monitor'; alerted_mints := alerted_mints st |}.

(* ------------------------------------------------------------------ *)
(** ** Stream dispatcher *)

(** For a decoded event of another trader: [holdings.lock()], test
    [contains_key], drop the guard, then [update_price]. *)
Definition propagate_price (send_ok : bool) (st : Monitor) (mnt : string) (price : float)
    : Monitor * list Event :=
  match holdings st !! mnt with
  | Some _ =>
      let '(st', evs) := update_price send_ok st mnt price in
      (st', [Acquire LHoldings; Release LHoldings] ++ evs)
  | None => (st, [Acquire LHoldings; Release LHoldings])
  end.

(** What reaches the shared state, in the order it reaches it. *)
Inductive Op :=
| OwnTrade (mnt : string) (is_buy : bool) (token_amount : Z) (price : float)
           (send_ok : bool)
| OtherTrade (mnt : string) (price : float) (send_ok : bool)
| Tick.

Definition step (st : Monitor) (op : Op) : Monitor * list Event :=
  match op with
  | OwnTrade mnt b a p ok => update_holdings ok st mnt b a p
  | OtherTrade mnt p ok => propagate_price ok st mnt p
  | Tick => (snapshot_tick st, [])
  end.

Fixpoint run (st : Monitor) (ops : list Op) : Monitor * list Event :=
  match ops with
  | [] => (st, [])
  | op :: ops' =>
      let '(st1, evs1) := step st op in
      let '(st2, evs2) := run st1 ops' in
      (st2, evs1 ++ evs2)
  end.

(** Alerts delivered for [mnt]: the sends the notifier accepted. *)
Definition alerts_for (mnt : string) (evs : list Event) : nat :=
  length (List.filter (fun e => match e with
                                | SendAlert k true => bool_decide (k = mnt)
                                | _ => false
                                end) evs).

(* ------------------------------------------------------------------ *)
(** ** Trace annotations: locks held at each event *)

#[global] Instance Lock_eq_dec : EqDecision Lock.
Proof. solve_decision. Defined.

Definition step_locks (held : list Lock) (e : Event) : list Lock :=
  match e with
  | Acquire l => l :: held
  | Release l => List.filter (fun l' => negb (bool_decide (l' = l))) held
  | _ => held
  end.

(** Each event paired with the locks held when it happens. *)
Fixpoint with_locks (held : list Lock) (evs : list Event) : list (list Lock * Event) :=
  match evs with
  | [] => []
  | e :: evs' => (held, e) :: with_locks (step_locks held e) evs'
  end.

(** Events that suspend on external network I/O. *)
Definition is_network_io (e : Event) : bool :=
  match e with SendAlert _ _ => true | _ => false end.

Definition is_lock_event (e : Event) : bool :=
  match e with Acquire _ | Release _ => true | _ => false end.

(* ------------------------------------------------------------------ *)
(** ** Concrete scenarios *)

(** Buy one token (10^6 raw) at 1 SOL, then sell half at 5 SOL: the gain
    of the remaining half is 400%. *)
Definition pump_round (mnt : string) : list Op :=
  [OwnTrade mnt true 1000000 1%float true; OwnTrade mnt false 500000 5%float true].

(** A round, a snapshot tick that prunes the half-token position, and a
    second round on the reopened position. *)
Definition reopen_after_tick : list Op :=
  pump_round "T" ++ [Tick] ++ pump_round "T".

(** 10000 tokens bought at 1 SOL, three price updates at 3 SOL (gain 200%),
    an oversell closing the position, a rebuy and one more update at 3 SOL. *)
Definition reopen_after_sell : list Op :=
  [OwnTrade "T" true 10000000000 1%float true;
   OtherTrade "T" 3%float true; OtherTrade "T" 3%float true; OtherTrade "T" 3%float true;
   OwnTrade "T" false 20000000000 3%float true;
   OwnTrade "T" true 10000000000 1%float true;
   OtherTrade "T" 3%float true].

(** Test payloads for the decoder: [le_bytes n z] is [z.to_le_bytes()]
    truncated to [n] bytes. *)
Fixpoint le_bytes (n : nat) (z : Z) : list Byte.byte :=
  match n with
  | O => []
  | S k => match Byte.of_N (Z.to_N (z mod 256)) with
           | Some b => b
           | None => Byte.x00
           end :: le_bytes k (z / 256)
  end.

(** A swap event with token bytes 0x07, 10^9 lamports, 2 * 10^6 raw
    tokens, a buy, trader bytes 0x09, padded with [pad] zero bytes. *)
Definition sample_event_bytes (pad : nat) : list Byte.byte :=
  repeat Byte.x00 8 ++ repeat Byte.x07 32 ++ le_bytes 8 1000000000 ++
  le_bytes 8 2000000 ++ [Byte.x01] ++ repeat Byte.x09 32 ++ repeat Byte.x00 pad.

(** A stand-in for the address codec in tests: the bytes themselves. *)
Definition raw_string (bs : list Byte.byte) : string := String.string_of_list_byte bs.

(** What the alert gate promises about one ledger operation on [mnt] that
    went from [st] to [st'] with trace [evs], the notifier answering
    [send_ok]. *)
Definition alert_gate_respected (send_ok : bool) (mnt : string) (st st' : Monitor)
    (evs : list Event) : Prop :=
  (* a token enters the set only through an accepted send *)
  (forall k, k ∉ alerted_mints st -> k ∈ alerted_mints st' -> In (SendAlert k true) evs) /\
  (* a refusing notifier never arms a token into the set *)
  (send_ok = false -> alerted_mints st' ⊆ alerted_mints st) /\
  (* a refused send is logged, the operation itself returns normally *)
  (forall k, In (SendAlert k false) evs -> In (ErrorLogged k) evs) /\
  (* an armed token over the threshold is always sent *)
  (forall h, In (Checked mnt h) evs -> 100 < price_change_percentage h ->
             mnt ∉ alerted_mints st -> In (SendAlert mnt send_ok) evs).

(** The trace property the spec asks for: no network I/O while a lock is held. *)
Definition no_io_under_lock (evs : list Event) : Prop :=
  forall held e, In (held, e) (with_locks [] evs) -> is_network_io e = true -> held = [].

(* ------------------------------------------------------------------ *)
(** ** Binary64 reasoning helpers *)

(** Scaling a finite [SpecFloat] value by [2^d] through its exponent. *)
Definition shift_exp (d : Z) (x : spec_float) : spec_float :=
  match x with
  | S754_finite s m e => S754_finite s m (e + d)
  | _ => x
  end.

(** The correctly rounded value of an integer, as [u64 as f64] computes it. *)
Definition sf_of_u64 (n : Z) : spec_float := binary_normalize prec emax n 0 false.

(** [x] is a signed zero, or a finite float whose 53-bit mantissa sits at an
    exponent of at least -1073, i.e. whose magnitude is at least 2^-1021:
    halving it stays in the normal range. *)
Definition normal_or_zero (x : float) : bool :=
  match Prim2SF x with
  | S754_zero _ => true
  | S754_finite _ _ e => (-1073 <=? e)
  | _ => false
  end.

(** A position of 2*10^10 raw units bought at 1.0, then [n] rounds of
    buying and selling back [U64_MAX - 2*10^10] raw units at price 0: each
    sell keeps the fraction [2*10^10 / U64_MAX] of the cost, which ends up
    subnormal while the position keeps its 2*10^10 raw units. *)
Definition tiny_cost_history (n : nat) : list Op :=
  OwnTrade "T"%string true 20000000000 1%float true ::
  List.concat (List.repeat [OwnTrade "T"%string true (U64_MAX - 20000000000) 0%float true;
                            OwnTrade "T"%string false (U64_MAX - 20000000000) 0%float true] n).

(* ================================================================== *)
(** * Theorems *)

(* ------------------------------------------------------------------ *)
(** ** Basic facts *)

Lemma powi_10_6 : powi 10 TOKEN_DECIMALS = 1e6%float.
Proof. reflexivity. Qed.

Lemma powi_10_9 : powi 10 SOL_DECIMALS = 1e9%float.
Proof. reflexivity. Qed.

(* ------------------------------------------------------------------ *)
(** ** C1: removal from the ledger and from the alerted set *)

(** C1 (code_bug). After [reopen_after_tick]'s first round has fired the
    alert for "T", the periodic snapshot task prunes the half-token
    position from [holdings], but it clears "T" from its own fresh
    [alerted_mints], not from the shared one: the ledger has no position
    for "T" while "T" is still in the alerted set. *)
Theorem C1_tick_prunes_without_clearing_alerted :
  let st := fst (run empty_monitor (pump_round "T" ++ [Tick])) in
  holdings st !! "T" = None /\ bool_decide ("T" ∈ alerted_mints st) = true.
Proof. vm_compute. split; reflexivity. Qed.

(* ------------------------------------------------------------------ *)
(** ** C5: the alert fires once per open position *)

(** C5 (code_bug). Closed by an oversell, a position re-arms; the three
    consecutive updates at 200% gain give one alert and the reopened
    position a second one.  Closed by the snapshot task instead, the
    position does not re-arm: the second round reaches 400% gain on the
    reopened position and no alert is sent. *)
Theorem C5_reopen_after_tick_not_realerted :
  alerts_for "T" (snd (run empty_monitor reopen_after_sell)) = 2%nat /\
  alerts_for "T" (snd (run empty_monitor (pump_round "T"))) = 1%nat /\
  alerts_for "T" (snd (run empty_monitor reopen_after_tick)) = 1%nat.
Proof. vm_compute. repeat split. Qed.

(* ------------------------------------------------------------------ *)
(** ** C7: derived price *)

(** C7. [calculate_price] is [(quote / 10^9) / (base / 10^6)] in binary64,
    and 0 when [base = 0]; 10^9 lamports for 2 * 10^6 raw tokens give 0.5. *)
Theorem C7_calculate_price_formula :
  (forall sol_amount token_amount : Z,
      calculate_price sol_amount token_amount =
      if token_amount =? 0 then 0%float
      else ((u64_to_f64 sol_amount / 1e9) / (u64_to_f64 token_amount / 1e6))%float) /\
  calculate_price 1000000000 2000000 = 0.5%float.
Proof.
  split.
  - intros sol_amount token_amount. unfold calculate_price.
    rewrite powi_10_6, powi_10_9. reflexivity.
  - vm_compute. reflexivity.
Qed.

(* ------------------------------------------------------------------ *)
(** ** C6: decoder *)

Lemma slice_firstn (i j n : nat) (d : list Byte.byte) :
  (i <= j)%nat -> (j <= n)%nat -> slice i j (firstn n d) = slice i j d.
Proof.
  intros Hij Hjn. unfold slice.
  rewrite !skipn_firstn_comm, firstn_firstn.
  f_equal. lia.
Qed.

Lemma nth_firstn_lt (i n : nat) (d : list Byte.byte) (x : Byte.byte) :
  (i < n)%nat -> nth i (firstn n d) x = nth i d x.
Proof.
  revert i n. induction d as [|b d IH]; intros i n Hin.
  - destruct n; reflexivity.
  - destruct n as [|n]; [lia|]. destruct i as [|i]; simpl; [reflexivity|].
    apply IH. lia.
Qed.

(** C6. The decoder is total: it answers [None] when base64 decoding
    fails or fewer than 129 bytes come out, and otherwise reads the token
    from bytes [8,40), the two little-endian u64 amounts from [40,48) and
    [48,56), [is_buy] from byte 56 and the trader from [57,89); two
    payloads of at least 129 bytes that agree on their first 89 bytes
    decode to the same result. *)
Theorem C6_decoder_layout :
  forall (b64_decode : string -> option (list Byte.byte))
         (bs58_encode : list Byte.byte -> string) (data_str : string),
    (b64_decode data_str = None ->
     decode_program_data b64_decode bs58_encode data_str = None) /\
    (forall d, b64_decode data_str = Some d -> (length d < 129)%nat ->
     decode_program_data b64_decode bs58_encode data_str = None) /\
    (forall d, b64_decode data_str = Some d -> (129 <= length d)%nat ->
     decode_program_data b64_decode bs58_encode data_str =
       Some (bs58_encode (slice 8 40 d), bs58_encode (slice 57 89 d),
             negb (Byte.eqb (nth 56 d Byte.x00) Byte.x00),
             le_u64 (slice 40 48 d), le_u64 (slice 48 56 d))) /\
    (forall data_str' d d',
       b64_decode data_str = Some d -> b64_decode data_str' = Some d' ->
       (129 <= length d)%nat -> (129 <= length d')%nat ->
       firstn 89 d = firstn 89 d' ->
       decode_program_data b64_decode bs58_encode data_str =
       decode_program_data b64_decode bs58_encode data_str').
Proof.
  intros b64 bs58 s.
  assert (Hok : forall s0 d, b64 s0 = Some d -> (129 <= length d)%nat ->
     decode_program_data b64 bs58 s0 =
       Some (bs58 (slice 8 40 d), bs58 (slice 57 89 d),
             negb (Byte.eqb (nth 56 d Byte.x00) Byte.x00),
             le_u64 (slice 40 48 d), le_u64 (slice 48 56 d))).
  { intros s0 d Hd Hlen. unfold decode_program_data. rewrite Hd.
    destruct (Nat.ltb_spec (length d) 129); [lia|]. reflexivity. }
  split; [|split; [|split]].
  - intros H. unfold decode_program_data. rewrite H. reflexivity.
  - intros d Hd Hlen. unfold decode_program_data. rewrite Hd.
    destruct (Nat.ltb_spec (length d) 129); [reflexivity|lia].
  - exact (Hok s).
  - intros s' d d' Hd Hd' Hl Hl' Hpre.
    rewrite (Hok s d Hd Hl), (Hok s' d' Hd' Hl').
    rewrite <- (slice_firstn 8 40 89 d), <- (slice_firstn 57 89 89 d),
      <- (slice_firstn 40 48 89 d), <- (slice_firstn 48 56 89 d),
      <- (nth_firstn_lt 56 89 d) by lia.
    rewrite <- (slice_firstn 8 40 89 d'), <- (slice_firstn 57 89 89 d'),
      <- (slice_firstn 40 48 89 d'), <- (slice_firstn 48 56 89 d'),
      <- (nth_firstn_lt 56 89 d') by lia.
    rewrite Hpre. reflexivity.
Qed.

(** A 129-byte payload decodes to its fields; a 128-byte one is refused. *)
Lemma C6_decoder_layout_witness :
  decode_program_data (fun _ => Some (sample_event_bytes 40)) raw_string "p" =
    Some (raw_string (repeat Byte.x07 32),
          raw_string (repeat Byte.x09 32),
          true, 1000000000, 2000000) /\
  decode_program_data (fun _ => Some (sample_event_bytes 39)) raw_string "p" = None.
Proof.
  split.
  - destruct (C6_decoder_layout (fun _ => Some (sample_event_bytes 40))
               raw_string "p")
      as [_ [_ [H _]]].
    rewrite (H (sample_event_bytes 40)); [vm_compute; reflexivity | reflexivity | vm_compute; lia].
  - destruct (C6_decoder_layout (fun _ => Some (sample_event_bytes 39))
               raw_string "p")
      as [_ [H _]].
    apply (H (sample_event_bytes 39)); [reflexivity | vm_compute; lia].
Defined.

(* ------------------------------------------------------------------ *)
(** ** C10: frame of a mark-price update *)

(** C10. A mark-price update with a nonzero price on a position at or
    above the display threshold changes only that position's
    [current_price]; every other position is untouched. *)
Theorem C10_update_price_frame :
  forall (send_ok : bool) (st : Monitor) (mnt : string) (price : float)
         (h : TokenHolding),
    PrimFloat.eqb price 0 = false ->
    holdings st !! mnt = Some h ->
    below_min_display h = false ->
    holdings (fst (update_price send_ok st mnt price)) =
      <[mnt := set_current_price price h]> (holdings st).
Proof.
  intros send_ok st mnt price h Hp Hh Hd.
  unfold update_price. rewrite Hp, Hh, Hd.
  destruct (check_and_send_alert send_ok mnt (set_current_price price h)
              (alerted_mints st)) as [[r al'] evs].
  reflexivity.
Qed.

Lemma C10_update_price_frame_witness :
  let st := fst (run empty_monitor [OwnTrade "T" true 10000000000 1%float true;
                                    OwnTrade "U" true 5 2%float true]) in
  let h := {| amount := 10000000000; mint := "T"; total_cost := 10000%float;
              current_price := 1%float |} in
  holdings (fst (update_price true st "T" 3%float)) =
    <[ "T" := set_current_price 3%float h ]> (holdings st).
Proof.
  intros st h.
  apply (C10_update_price_frame true st "T" 3%float h);
    [reflexivity | vm_compute; reflexivity | vm_compute; reflexivity].
Defined.

(* ------------------------------------------------------------------ *)
(** ** Facts about [check_and_send_alert] *)

Ltac inv_in :=
  repeat match goal with
         | H : In _ [] |- _ => destruct H
         | H : In _ (_ :: _) |- _ => destruct H as [H|H]
         | H : SendAlert _ _ = SendAlert _ _ |- _ => injection H; clear H; intros; subst
         | H : Checked _ _ = Checked _ _ |- _ => injection H; clear H; intros; subst
         | H : Checked _ _ = SendAlert _ _ |- _ => discriminate H
         | H : SendAlert _ _ = Checked _ _ |- _ => discriminate H
         end.

Lemma check_and_send_alert_spec (send_ok : bool) (k : string) (h : TokenHolding)
    (al al' : gset string) (r : result) (evs : list Event) :
  check_and_send_alert send_ok k h al = (r, al', evs) ->
  (forall x, x ∉ al -> x ∈ al' -> In (SendAlert x true) evs) /\
  (send_ok = false -> al' = al) /\
  (forall x o, In (SendAlert x o) evs -> x = k /\ o = send_ok /\ (o = false -> r = Err)) /\
  (forall k' h', In (Checked k' h') evs -> k' = k /\ h' = h) /\
  (100 < price_change_percentage h -> k ∉ al -> In (SendAlert k send_ok) evs) /\
  Forall (fun e => is_lock_event e = false) evs.
Proof.
  unfold check_and_send_alert.
  destruct (Z.ltb_spec 100 (price_change_percentage h)) as [Hgt|Hle];
    [destruct (bool_decide (k ∈ al)) eqn:Hin; [|destruct send_ok]|];
    intros E; inversion E; subst; clear E;
    try apply bool_decide_eq_true in Hin; try apply bool_decide_eq_false in Hin;
    (split; [|split; [|split; [|split; [|split]]]]);
    intros; simpl in *; inv_in;
    try solve [ set_solver | tauto | lia | repeat constructor
              | repeat split; congruence ].
Qed.

Lemma gate_check_path (send_ok : bool) (k : string) (h : TokenHolding)
    (st st' : Monitor) (r : result) (al' : gset string) (evs : list Event) :
  check_and_send_alert send_ok k h (alerted_mints st) = (r, al', evs) ->
  alerted_mints st' ⊆ al' ->
  alert_gate_respected send_ok k st st' (lock_all ++ evs ++ log_err r k ++ unlock_all).
Proof.
  intros E Hsub.
  destruct (check_and_send_alert_spec _ _ _ _ _ _ _ E)
    as (Hins & Hfail & Hsend & Hchk & Hfire & _).
  unfold alert_gate_respected, lock_all, unlock_all.
  split; [|split; [|split]].
  - intros x Hx Hx'. simpl. right; right. apply in_or_app. left.
    apply Hins; [exact Hx | set_solver].
  - intros Hok. rewrite <- (Hfail Hok). exact Hsub.
  - intros x Hin. simpl in Hin.
    destruct Hin as [Hin|[Hin|Hin]]; try discriminate.
    apply in_app_or in Hin. destruct Hin as [Hin|Hin].
    + destruct (Hsend x false Hin) as (-> & _ & Hr). rewrite (Hr eq_refl).
      simpl. right; right. apply in_or_app; right. left. reflexivity.
    + apply in_app_or in Hin. destruct Hin as [Hin|Hin].
      * destruct r; simpl in Hin; [contradiction|]. destruct Hin as [Hin|[]]; discriminate.
      * simpl in Hin. destruct Hin as [Hin|[Hin|[]]]; discriminate.
  - intros h' Hin Hgt Hnot. simpl in Hin.
    destruct Hin as [Hin|[Hin|Hin]]; try discriminate.
    apply in_app_or in Hin. destruct Hin as [Hin|Hin].
    + destruct (Hchk _ _ Hin) as [_ ->].
      simpl. right; right. apply in_or_app; left. apply Hfire; assumption.
    + apply in_app_or in Hin. destruct Hin as [Hin|Hin].
      * destruct r; simpl in Hin; [contradiction|]. destruct Hin as [Hin|[]]; discriminate.
      * simpl in Hin. destruct Hin as [Hin|[Hin|[]]]; discriminate.
Qed.

Lemma gate_nocheck_path (send_ok : bool) (k : string) (st st' : Monitor) :
  alerted_mints st' ⊆ alerted_mints st ->
  alert_gate_respected send_ok k st st' (lock_all ++ unlock_all).
Proof.
  intros Hsub. unfold alert_gate_respected.
  split; [|split; [|split]]; simpl; intros; try set_solver;
    repeat match goal with H : _ \/ _ |- _ => destruct H end;
    try discriminate; try contradiction.
Qed.

(* ------------------------------------------------------------------ *)
(** ** C9: the gate arms only on an accepted send *)

(** C9. For [update_holdings] and [update_price]: a token enters the
    alerted set only through a send the notifier accepted; when it refuses,
    nothing enters the set (the gate stays armed), the failure is logged
    and the operation returns normally; and any later check of an armed
    token above 100% sends again. *)
Theorem C9_alert_inserted_only_after_success :
  (forall (send_ok : bool) (st : Monitor) (mnt : string) (is_buy : bool)
          (token_amount : Z) (price : float),
     let '(st', evs) := update_holdings send_ok st mnt is_buy token_amount price in
     alert_gate_respected send_ok mnt st st' evs) /\
  (forall (send_ok : bool) (st : Monitor) (mnt : string) (price : float),
     let '(st', evs) := update_price send_ok st mnt price in
     alert_gate_respected send_ok mnt st st' evs).
Proof.
  split.
  - intros send_ok st mnt is_buy token_amount price.
    unfold update_holdings. destruct is_buy.
    + match goal with |- context [check_and_send_alert send_ok mnt ?h ?al] =>
        destruct (check_and_send_alert send_ok mnt h al) as [[r al'] evs] eqn:E end.
      apply (gate_check_path _ _ _ _ _ _ _ _ E). simpl. set_solver.
    + destruct (holdings st !! mnt) as [h|] eqn:Hh.
      * match goal with |- context [check_and_send_alert send_ok mnt ?h ?al] =>
          destruct (check_and_send_alert send_ok mnt h al) as [[r al'] evs] eqn:E end.
        destruct (_ <? MIN_HOLDING_AMOUNT);
          apply (gate_check_path _ _ _ _ _ _ _ _ E); simpl; set_solver.
      * apply gate_nocheck_path. set_solver.
  - intros send_ok st mnt price.
    unfold update_price.
    destruct (PrimFloat.eqb price 0); [apply gate_nocheck_path; set_solver|].
    destruct (holdings st !! mnt) as [h|] eqn:Hh; [|apply gate_nocheck_path; set_solver].
    destruct (below_min_display h); [apply gate_nocheck_path; simpl; set_solver|].
    destruct (check_and_send_alert send_ok mnt (set_current_price price h)
                (alerted_mints st)) as [[r al'] evs] eqn:E.
    apply (gate_check_path _ _ _ _ _ _ _ _ E). simpl. set_solver.
Qed.

(** A refused send leaves "T" armed and is logged; the next update over
    the threshold sends again. *)
Lemma C9_alert_inserted_only_after_success_witness :
  let st1 := fst (run empty_monitor [OwnTrade "T" true 10000000000 1%float true]) in
  let st2 := fst (update_price false st1 "T" 3%float) in
  alerted_mints st2 ⊆ alerted_mints st1 /\
  In (ErrorLogged "T") (snd (update_price false st1 "T" 3%float)) /\
  In (SendAlert "T" true) (snd (update_price true st2 "T" 3%float)).
Proof.
  intros st1 st2.
  destruct C9_alert_inserted_only_after_success as [_ Hp].
  pose proof (Hp false st1 "T" 3%float) as H1.
  unfold st2. destruct (update_price false st1 "T" 3%float) as [s2 e2] eqn:E2.
  simpl. destruct H1 as (_ & Hf & Hl & _).
  pose proof (Hp true s2 "T" 3%float) as H2.
  destruct (update_price true s2 "T" 3%float) as [s3 e3] eqn:E3.
  simpl. destruct H2 as (_ & _ & _ & Hfire).
  unfold st1 in E2. vm_compute in E2. injection E2 as <- <-.
  split; [apply Hf; reflexivity|]. split.
  - apply (Hl "T"). simpl. tauto.
  - vm_compute in E3. injection E3 as <- <-.
    apply (Hfire {| amount := 10000000000; mint := "T"; total_cost := 10000%float;
                    current_price := 3%float |}).
    + simpl. tauto.
    + vm_compute. reflexivity.
    + apply (proj1 (bool_decide_eq_false _)). vm_compute. reflexivity.
Defined.

(* ------------------------------------------------------------------ *)
(** ** C2: what happens while the locks are held *)

Lemma with_locks_app (held : list Lock) (a b : list Event) :
  with_locks held (a ++ b) = with_locks held a ++ with_locks (fold_left step_locks a held) b.
Proof.
  revert held. induction a as [|e a IH]; intros held; simpl; [reflexivity|].
  rewrite IH. reflexivity.
Qed.

Lemma with_locks_lock_free (held : list Lock) (evs : list Event) :
  Forall (fun e => is_lock_event e = false) evs ->
  with_locks held evs = map (pair held) evs /\ fold_left step_locks evs held = held.
Proof.
  intros Hf. revert held. induction Hf as [|e evs He Hf IH]; intros held;
    simpl; [split; reflexivity|].
  assert (Hs : step_locks held e = held) by (destruct e; simpl in *; congruence).
  rewrite Hs. destruct (IH held) as [-> ->]. split; reflexivity.
Qed.

(** A body without lock operations between [lock_all] and [unlock_all]
    runs with both locks held. *)
Lemma critical_section_io (body : list Event) :
  Forall (fun e => is_lock_event e = false) body ->
  forall held e, In (held, e) (with_locks [] (lock_all ++ body ++ unlock_all)) ->
  is_network_io e = true -> In LHoldings held /\ In LAlerted held.
Proof.
  intros Hf held e Hin Hio.
  rewrite !with_locks_app in Hin. simpl in Hin.
  destruct (with_locks_lock_free [LAlerted; LHoldings] body Hf) as [Hw Hfold].
  rewrite Hw, Hfold in Hin. simpl in Hin.
  destruct Hin as [Hin|[Hin|Hin]];
    [injection Hin as <- <-; discriminate | injection Hin as <- <-; discriminate|].
  apply in_app_or in Hin. destruct Hin as [Hin|Hin].
  - apply in_map_iff in Hin. destruct Hin as [x [Hx _]].
    injection Hx as <- <-. simpl. tauto.
  - simpl in Hin. destruct Hin as [Hin|[Hin|[]]]; injection Hin as <- <-; discriminate.
Qed.

Lemma check_section_io (evs errs : list Event) :
  Forall (fun e => is_lock_event e = false) (evs ++ errs) ->
  forall held e, In (held, e) (with_locks [] (lock_all ++ evs ++ errs ++ unlock_all)) ->
  is_network_io e = true -> In LHoldings held /\ In LAlerted held.
Proof.
  intros Hf held e Hin. rewrite (app_assoc evs) in Hin.
  exact (critical_section_io _ Hf held e Hin).
Qed.

Lemma log_err_lock_free (r : result) (k : string) :
  Forall (fun e => is_lock_event e = false) (log_err r k).
Proof. destruct r; repeat constructor. Qed.

Lemma check_body_lock_free (send_ok : bool) (k : string) (h : TokenHolding)
    (al al' : gset string) (r : result) (evs : list Event) :
  check_and_send_alert send_ok k h al = (r, al', evs) ->
  Forall (fun e => is_lock_event e = false) (evs ++ log_err r k).
Proof.
  intros E. apply Forall_app. split.
  - apply (check_and_send_alert_spec _ _ _ _ _ _ _ E).
  - apply log_err_lock_free.
Qed.

(** C2 (counterexample). On the second buy of a pump, [update_holdings]
    awaits the alert send while holding both locks. *)
Lemma C2_send_awaited_under_locks :
  let st := fst (run empty_monitor [OwnTrade "T" true 1000000 1%float true]) in
  ~ no_io_under_lock (snd (update_holdings true st "T" true 1 1000%float)).
Proof.
  intros st H.
  assert (Hin : In ([LAlerted; LHoldings], SendAlert "T" true)
                   (with_locks [] (snd (update_holdings true st "T" true 1 1000%float)))).
  { vm_compute. right; right; right; left. reflexivity. }
  specialize (H _ _ Hin eq_refl). discriminate H.
Qed.

(** C2 (amended). In [update_holdings] and [update_price] both locks are
    taken when the operation starts and kept until it returns, and every
    alert send is awaited with both the ledger lock and the alerted-set
    lock held. *)
Theorem C2_alert_send_inside_critical_section :
  (forall (send_ok : bool) (st : Monitor) (mnt : string) (is_buy : bool)
          (token_amount : Z) (price : float) held e,
     In (held, e) (with_locks [] (snd (update_holdings send_ok st mnt is_buy token_amount price))) ->
     is_network_io e = true -> In LHoldings held /\ In LAlerted held) /\
  (forall (send_ok : bool) (st : Monitor) (mnt : string) (price : float) held e,
     In (held, e) (with_locks [] (snd (update_price send_ok st mnt price))) ->
     is_network_io e = true -> In LHoldings held /\ In LAlerted held).
Proof.
  split.
  - intros send_ok st mnt is_buy token_amount price.
    unfold update_holdings. destruct is_buy.
    + match goal with |- context [check_and_send_alert send_ok mnt ?h ?al] =>
        destruct (check_and_send_alert send_ok mnt h al) as [[r al'] evs] eqn:E end.
      exact (check_section_io _ _ (check_body_lock_free _ _ _ _ _ _ _ E)).
    + destruct (holdings st !! mnt) as [h|].
      * match goal with |- context [check_and_send_alert send_ok mnt ?h ?al] =>
          destruct (check_and_send_alert send_ok mnt h al) as [[r al'] evs] eqn:E end.
        destruct (_ <? MIN_HOLDING_AMOUNT);
          exact (check_section_io _ _ (check_body_lock_free _ _ _ _ _ _ _ E)).
      * exact (critical_section_io [] (List.Forall_nil _)).
  - intros send_ok st mnt price.
    unfold update_price.
    destruct (PrimFloat.eqb price 0); [exact (critical_section_io [] (List.Forall_nil _))|].
    destruct (holdings st !! mnt) as [h|]; [|exact (critical_section_io [] (List.Forall_nil _))].
    destruct (below_min_display h); [exact (critical_section_io [] (List.Forall_nil _))|].
    destruct (check_and_send_alert send_ok mnt (set_current_price price h)
                (alerted_mints st)) as [[r al'] evs] eqn:E.
    exact (check_section_io _ _ (check_body_lock_free _ _ _ _ _ _ _ E)).
Qed.

(** The second buy of a pump sends its alert with both locks held. *)
Lemma C2_alert_send_inside_critical_section_witness :
  let st := fst (run empty_monitor [OwnTrade "T" true 1000000 1%float true]) in
  In LHoldings [LAlerted; LHoldings] /\ In LAlerted [LAlerted; LHoldings].
Proof.
  intros st.
  destruct C2_alert_send_inside_critical_section as [Hh _].
  apply (Hh true st "T" true 1 1000%float [LAlerted; LHoldings] (SendAlert "T" true));
    [vm_compute; right; right; right; left; reflexivity | reflexivity].
Defined.

(* ------------------------------------------------------------------ *)
(** ** C3: dust closure *)

(** C3 (counterexample). A buy of 1 raw unit on an empty ledger keeps a
    position whose display amount (10^-6) is below the threshold, and a
    sell leaving 20000 raw units (display 0.02) keeps one too, while the
    mark-price path would drop both. *)
Lemma C3_dust_check_not_uniform :
  (exists h, holdings (fst (update_holdings true empty_monitor "T" true 1 1%float)) !! "T" = Some h /\
             below_min_display h = true) /\
  (exists h, holdings (fst (run empty_monitor
                   [OwnTrade "T" true 1000000 1%float true;
                    OwnTrade "T" false 980000 1%float true])) !! "T" = Some h /\
             below_min_display h = true).
Proof.
  split.
  - exists {| amount := 1; mint := "T"; total_cost := (actual_amount 1 * 1)%float; current_price := 1%float |}.
    split; vm_compute; reflexivity.
  - exists {| amount := 20000; mint := "T";
              total_cost := (actual_amount 1000000 * (1 - u64_to_f64 980000 / u64_to_f64 1000000))%float;
              current_price := 1%float |}.
    split; vm_compute; reflexivity.
Qed.

(** C3 (amended). The buy branch never removes the position; a nonzero
    mark-price update on an existing position removes it, with its alerted
    entry, exactly when its display amount is below 10000; a sell that
    removes the position also clears its alerted entry. *)
Theorem C3_dust_closure_by_path :
  (forall (send_ok : bool) (st : Monitor) (mnt : string) (token_amount : Z) (price : float),
     is_Some (holdings (fst (update_holdings send_ok st mnt true token_amount price)) !! mnt)) /\
  (forall (send_ok : bool) (st : Monitor) (mnt : string) (price : float) (h : TokenHolding),
     PrimFloat.eqb price 0 = false ->
     holdings st !! mnt = Some h ->
     let st' := fst (update_price send_ok st mnt price) in
     (holdings st' !! mnt = None <-> below_min_display h = true) /\
     (below_min_display h = true -> mnt ∉ alerted_mints st')) /\
  (forall (send_ok : bool) (st : Monitor) (mnt : string) (token_amount : Z) (price : float)
          (h : TokenHolding),
     holdings st !! mnt = Some h ->
     let st' := fst (update_holdings send_ok st mnt false token_amount price) in
     holdings st' !! mnt = None -> mnt ∉ alerted_mints st').
Proof.
  split; [|split].
  - intros send_ok st mnt token_amount price. unfold update_holdings.
    match goal with |- context [check_and_send_alert send_ok mnt ?h ?al] =>
      destruct (check_and_send_alert send_ok mnt h al) as [[r al'] evs] end.
    simpl. rewrite lookup_insert_eq. eexists; reflexivity.
  - intros send_ok st mnt price h Hp Hh. unfold update_price. rewrite Hp, Hh.
    destruct (below_min_display h) eqn:Hd.
    + simpl. rewrite lookup_delete_eq. split; [tauto|]. intros _. set_solver.
    + destruct (check_and_send_alert send_ok mnt (set_current_price price h)
                  (alerted_mints st)) as [[r al'] evs].
      simpl. rewrite lookup_insert_eq.
      split; [split; discriminate | discriminate].
  - intros send_ok st mnt token_amount price h Hh. unfold update_holdings. rewrite Hh.
    match goal with |- context [check_and_send_alert send_ok mnt ?h ?al] =>
      destruct (check_and_send_alert send_ok mnt h al) as [[r al'] evs] end.
    destruct (_ <? MIN_HOLDING_AMOUNT); simpl.
    + intros _. set_solver.
    + rewrite lookup_insert_eq. discriminate.
Qed.

(** A mark update drops a one-token position; a full sell clears its
    alerted entry. *)
Lemma C3_dust_closure_by_path_witness :
  let st := fst (run empty_monitor [OwnTrade "T" true 1000000 1%float true]) in
  holdings (fst (update_price true st "T" 3%float)) !! "T" = None /\
  "T" ∉ alerted_mints (fst (update_holdings true st "T" false 1000000 5%float)).
Proof.
  intros st.
  destruct C3_dust_closure_by_path as [_ [Hp Hs]].
  assert (Hh : holdings st !! "T" =
               Some {| amount := 1000000; mint := "T"; total_cost := 1%float;
                       current_price := 1%float |}) by (vm_compute; reflexivity).
  split.
  - pose proof (Hp true st "T" 3%float _ eq_refl Hh) as H. cbv zeta in H.
    destruct H as [Hiff _]. apply Hiff. vm_compute. reflexivity.
  - apply (Hs true st "T" 1000000 5%float _ Hh). vm_compute. reflexivity.
Defined.

(* ------------------------------------------------------------------ *)
(** ** C4: sells and oversells *)

(** C4 (counterexample). Selling 40000 raw units of a 20000-unit position
    gives [sell_ratio] 2, not clamped: the holding the alert check
    inspects has a negative [total_cost]. *)
Lemma C4_oversell_cost_negative :
  let st := fst (run empty_monitor [OwnTrade "T" true 20000 1%float true]) in
  exists h, In (Checked "T" h) (snd (update_holdings true st "T" false 40000 1%float)) /\
            PrimFloat.ltb (total_cost h) 0 = true.
Proof.
  intros st.
  exists {| amount := 0; mint := "T"; total_cost := (actual_amount 20000 * (1 - u64_to_f64 40000 / u64_to_f64 20000))%float; current_price := 1%float |}.
  split; [vm_compute; right; right; left; reflexivity | vm_compute; reflexivity].
Qed.

(** C4 (amended). A sell without a position changes nothing; otherwise
    [total_cost] is multiplied by [1 - base/raw] (no clamping) and
    [amount] is reduced by saturating subtraction; an oversell leaves
    amount 0, so the position and its alerted entry are removed in the
    same operation. *)
Theorem C4_sell_unclamped_ratio :
  (forall (send_ok : bool) (st : Monitor) (mnt : string) (token_amount : Z) (price : float),
     holdings st !! mnt = None ->
     update_holdings send_ok st mnt false token_amount price = (st, lock_all ++ unlock_all)) /\
  (forall (send_ok : bool) (st : Monitor) (mnt : string) (token_amount : Z) (price : float)
          (h : TokenHolding),
     holdings st !! mnt = Some h ->
     In (Checked mnt
           {| amount := Z.max (amount h - token_amount) 0;
              mint := mint h;
              total_cost := (total_cost h *
                               (1 - u64_to_f64 token_amount / u64_to_f64 (amount h)))%float;
              current_price := price |})
        (snd (update_holdings send_ok st mnt false token_amount price))) /\
  (forall (send_ok : bool) (st : Monitor) (mnt : string) (token_amount : Z) (price : float)
          (h : TokenHolding),
     holdings st !! mnt = Some h -> amount h < token_amount ->
     let st' := fst (update_holdings send_ok st mnt false token_amount price) in
     holdings st' !! mnt = None /\ mnt ∉ alerted_mints st').
Proof.
  split; [|split].
  - intros send_ok st mnt token_amount price Hh. unfold update_holdings. rewrite Hh.
    destruct st; reflexivity.
  - intros send_ok st mnt token_amount price h Hh. unfold update_holdings. rewrite Hh.
    match goal with |- context [check_and_send_alert send_ok mnt ?h ?al] =>
      destruct (check_and_send_alert send_ok mnt h al) as [[r al'] evs] eqn:E end.
    assert (Hc : In (Checked mnt
           {| amount := Z.max (amount h - token_amount) 0;
              mint := mint h;
              total_cost := (total_cost h *
                               (1 - u64_to_f64 token_amount / u64_to_f64 (amount h)))%float;
              current_price := price |}) evs).
    { revert E. unfold check_and_send_alert.
      destruct (100 <? _); [destruct (bool_decide _); [|destruct send_ok]|];
        intros E; inversion E; subst; simpl; left; reflexivity. }
    destruct (_ <? MIN_HOLDING_AMOUNT); simpl; right; right;
      apply in_or_app; left; exact Hc.
  - intros send_ok st mnt token_amount price h Hh Hlt. unfold update_holdings. rewrite Hh.
    match goal with |- context [check_and_send_alert send_ok mnt ?h ?al] =>
      destruct (check_and_send_alert send_ok mnt h al) as [[r al'] evs] end.
    unfold saturating_sub. simpl.
    replace (Z.max (amount h - token_amount) 0 <? MIN_HOLDING_AMOUNT) with true
      by (symmetry; apply Z.ltb_lt; unfold MIN_HOLDING_AMOUNT; lia).
    simpl. rewrite lookup_delete_eq. split; [reflexivity | set_solver].
Qed.

(** A sell of an unknown token is a no-op; an oversell closes the position. *)
Lemma C4_sell_unclamped_ratio_witness :
  let st := fst (run empty_monitor [OwnTrade "T" true 20000 1%float true]) in
  update_holdings true empty_monitor "T" false 5 1%float = (empty_monitor, lock_all ++ unlock_all) /\
  holdings (fst (update_holdings true st "T" false 40000 1%float)) !! "T" = None.
Proof.
  intros st.
  destruct C4_sell_unclamped_ratio as [Hn [_ Ho]].
  split.
  - apply Hn. reflexivity.
  - assert (Hh : holdings st !! "T" =
                 Some {| amount := 20000; mint := "T"; total_cost := (actual_amount 20000 * 1)%float;
                         current_price := 1%float |}) by (vm_compute; reflexivity).
    pose proof (Ho true st "T" 40000 1%float _ Hh) as H. cbv zeta in H.
    apply H. simpl. lia.
Defined.

(* ------------------------------------------------------------------ *)
(** ** Binary64 arithmetic of the sell path *)

Module Binary64.

Lemma fexp_eq (x : Z) : fexp prec emax x = Z.max (x - 53) (-1074).
Proof. reflexivity. Qed.

Lemma fexp_succ (x : Z) : -1021 <= x -> fexp prec emax (x + 1) = fexp prec emax x + 1.
Proof. intros H. rewrite !fexp_eq. lia. Qed.

Lemma digits2_pos_size (p : positive) : digits2_pos p = Pos.size p.
Proof. induction p; simpl; congruence. Qed.

Lemma size_bounds (p : positive) : 2 ^ (Zpos (Pos.size p) - 1) <= Zpos p < 2 ^ Zpos (Pos.size p).
Proof.
  pose proof (Pos.size_gt p) as H1. pose proof (Pos.size_le p) as H2.
  split.
  - assert (Zpos (2 ^ Pos.size p) <= Zpos p~0) by exact H2.
    rewrite Pos2Z.inj_pow in H. rewrite Pos2Z.inj_xO in H.
    assert (2 ^ Zpos (Pos.size p) = 2 * 2 ^ (Zpos (Pos.size p) - 1)).
    { rewrite <- Z.pow_succ_r by lia. f_equal. lia. }
    lia.
  - assert (Zpos p < Zpos (2 ^ Pos.size p)) by exact H1.
    rewrite Pos2Z.inj_pow in H. exact H.
Qed.

Lemma size_unique (p : positive) (d : Z) :
  0 < d -> 2 ^ (d - 1) <= Zpos p < 2 ^ d -> Zpos (Pos.size p) = d.
Proof.
  intros Hd [Hl Hu]. pose proof (size_bounds p) as [Bl Bu].
  destruct (Z.lt_trichotomy (Zpos (Pos.size p)) d) as [Hlt|[Heq|Hgt]]; [|exact Heq|].
  - assert (2 ^ Zpos (Pos.size p) <= 2 ^ (d - 1)) by (apply Z.pow_le_mono_r; lia). lia.
  - assert (2 ^ d <= 2 ^ (Zpos (Pos.size p) - 1)) by (apply Z.pow_le_mono_r; lia). lia.
Qed.

Lemma Zdigits2_le (m d : Z) : 0 <= m < 2 ^ d -> 0 <= d -> Zdigits2 m <= d.
Proof.
  intros [H0 H1] Hd. destruct m as [|p|p]; simpl; [lia| |lia].
  rewrite digits2_pos_size. pose proof (size_bounds p) as [Bl _].
  destruct (Z_le_gt_dec (Zpos (Pos.size p)) d) as [|Hgt]; [assumption|].
  assert (2 ^ d <= 2 ^ (Zpos (Pos.size p) - 1)) by (apply Z.pow_le_mono_r; lia). lia.
Qed.

Lemma Zdigits2_nonneg (m : Z) : 0 <= Zdigits2 m.
Proof. destruct m; simpl; lia. Qed.

(** [iter_pos] is plain iteration. *)
Lemma iter_pos_nat {A} (f : A -> A) (n : positive) (x : A) :
  SpecFloat.iter_pos f n x = Nat.iter (Pos.to_nat n) f x.
Proof.
  revert x. induction n as [n IH|n IH|]; intros x.
  - rewrite Pos2Nat.inj_xI. simpl SpecFloat.iter_pos. rewrite !IH.
    rewrite <- Nat.iter_add. rewrite Nat.iter_succ_r. f_equal. lia.
  - rewrite Pos2Nat.inj_xO. simpl SpecFloat.iter_pos. rewrite !IH. rewrite <- Nat.iter_add. f_equal. lia.
  - reflexivity.
Qed.

Lemma shr_1_m (r : shr_record) : 0 <= shr_m r -> shr_m (shr_1 r) = shr_m r / 2.
Proof.
  destruct r as [m rb sb]; simpl. intros H.
  destruct m as [|p|p]; [reflexivity| |lia].
  destruct p as [p|p|]; simpl; try reflexivity.
  - rewrite Pos2Z.inj_xI. rewrite Z.add_comm, Z.mul_comm, Z.div_add by lia. reflexivity.
  - rewrite Pos2Z.inj_xO. rewrite Z.mul_comm, Z.div_mul by lia. reflexivity.
Qed.

Lemma shr_iter_m (n : nat) (r : shr_record) :
  0 <= shr_m r -> shr_m (Nat.iter n shr_1 r) = shr_m r / 2 ^ Z.of_nat n.
Proof.
  induction n as [|n IH]; intros H.
  - simpl. rewrite Z.div_1_r. reflexivity.
  - change (Nat.iter (S n) shr_1 r) with (shr_1 (Nat.iter n shr_1 r)).
    rewrite shr_1_m.
    + rewrite IH by exact H. rewrite Z.div_div by lia.
      f_equal. rewrite Nat2Z.inj_succ, Z.pow_succ_r by lia. ring.
    + rewrite IH by exact H. apply Z.div_pos; lia.
Qed.

Lemma shr_iter_exact (n : nat) (p : positive) :
  Nat.iter n shr_1 (Build_shr_record (Zpos (Nat.iter n xO p)) false false) =
  Build_shr_record (Zpos p) false false.
Proof.
  induction n as [|n IH]; [reflexivity|].
  rewrite Nat.iter_succ_r. simpl. exact IH.
Qed.

Lemma iter_xO_Z (n : nat) (p : positive) : Zpos (Nat.iter n xO p) = Zpos p * 2 ^ Z.of_nat n.
Proof.
  induction n as [|n IH]; [simpl; lia|].
  change (Nat.iter (S n) xO p) with (xO (Nat.iter n xO p)).
  rewrite Pos2Z.inj_xO, IH, Nat2Z.inj_succ, Z.pow_succ_r by lia. ring.
Qed.

Lemma shr_shift (mrs : shr_record) (e n : Z) :
  shr mrs (e + 1) n = (fst (shr mrs e n), snd (shr mrs e n) + 1).
Proof. destruct n; simpl; f_equal; lia. Qed.

Lemma shr_fexp_shift (m e : Z) (l : location) :
  -1021 <= Zdigits2 m + e ->
  shr_fexp prec emax m (e + 1) l = (fst (shr_fexp prec emax m e l), snd (shr_fexp prec emax m e l) + 1).
Proof.
  intros H. unfold shr_fexp.
  replace (Zdigits2 m + (e + 1)) with ((Zdigits2 m + e) + 1) by lia.
  rewrite fexp_succ by lia.
  replace (fexp prec emax (Zdigits2 m + e) + 1 - (e + 1)) with (fexp prec emax (Zdigits2 m + e) - e) by lia.
  apply shr_shift.
Qed.

Lemma shr_record_of_loc_m (m : Z) (l : location) : shr_m (shr_record_of_loc m l) = m.
Proof. destruct l as [|[]]; reflexivity. Qed.

Lemma shr_bounds (mrs : shr_record) (e n : Z) :
  0 <= shr_m mrs ->
  e <= snd (shr mrs e n) <= e + Z.max n 0 /\
  0 <= shr_m (fst (shr mrs e n)) <= shr_m mrs.
Proof.
  intros H. destruct n as [|p|p]; simpl; try lia.
  rewrite iter_pos_nat, shr_iter_m by exact H.
  assert (0 < 2 ^ Z.of_nat (Pos.to_nat p)) by (apply Z.pow_pos_nonneg; lia).
  split; [lia|]. split; [apply Z.div_pos; lia|].
  apply Z.div_le_upper_bound; [lia|]. nia.
Qed.

Lemma shr_fexp_bounds (m e d : Z) (l : location) :
  0 <= m < 2 ^ d -> 0 <= d -> -1021 <= e ->
  e <= snd (shr_fexp prec emax m e l) <= e + Z.max (d - 53) 0 /\
  0 <= shr_m (fst (shr_fexp prec emax m e l)) <= m.
Proof.
  intros Hm Hd He. unfold shr_fexp.
  pose proof (shr_bounds (shr_record_of_loc m l) e (fexp prec emax (Zdigits2 m + e) - e)) as B.
  rewrite shr_record_of_loc_m in B.
  pose proof (Zdigits2_le m d Hm Hd). rewrite fexp_eq in B |- *. lia.
Qed.

Lemma rne_bounds (m : Z) (l : location) : m <= round_nearest_even m l <= m + 1.
Proof. destruct l as [|[]]; simpl; try destruct (Z.even m); lia. Qed.

(** Rounding commutes with scaling by two away from the subnormal and
    overflow ranges. *)
Lemma bra_shift (s : bool) (m e : Z) (l : location) :
  0 <= m < 2 ^ 70 -> -1021 <= e <= 800 ->
  binary_round_aux prec emax s m (e + 1) l = shift_exp 1 (binary_round_aux prec emax s m e l).
Proof.
  intros Hm He. unfold binary_round_aux.
  rewrite shr_fexp_shift by (pose proof (Zdigits2_nonneg m); lia).
  pose proof (shr_fexp_bounds m e 70 l Hm ltac:(lia) ltac:(lia)) as [B1 B2].
  destruct (shr_fexp prec emax m e l) as [r1 e1] eqn:E1. simpl fst in *; simpl snd in *.
  pose proof (rne_bounds (shr_m r1) (loc_of_shr_record r1)) as R.
  set (m2 := round_nearest_even (shr_m r1) (loc_of_shr_record r1)) in *.
  assert (Hm2 : 0 <= m2 < 2 ^ 71).
  { assert (2 ^ 71 = 2 * 2 ^ 70) by reflexivity. lia. }
  rewrite shr_fexp_shift by (pose proof (Zdigits2_nonneg m2); lia).
  pose proof (shr_fexp_bounds m2 e1 71 loc_Exact Hm2 ltac:(lia) ltac:(lia)) as [C1 C2].
  destruct (shr_fexp prec emax m2 e1 loc_Exact) as [r2 e2] eqn:E2. simpl fst in *; simpl snd in *.
  destruct (shr_m r2) as [|p|p]; simpl; try reflexivity.
  change (Z.sub emax prec) with 971.
  destruct (Z.leb_spec (e2 + 1) 971), (Z.leb_spec e2 971); simpl; try reflexivity; lia.
Qed.

Lemma Pos_iter_nat {A} (f : A -> A) (x : A) (p : positive) :
  Pos.iter f x p = Nat.iter (Pos.to_nat p) f x.
Proof. exact (Pos2Nat.inj_iter p f x). Qed.

Lemma shr_nat (mrs : shr_record) (e n : Z) :
  0 <= n -> shr mrs e n = (Nat.iter (Z.to_nat n) shr_1 mrs, e + n).
Proof.
  intros H. destruct n as [|p|p]; simpl.
  - rewrite Z.add_0_r. reflexivity.
  - rewrite iter_pos_nat. reflexivity.
  - lia.
Qed.

Lemma Zdigits2_53 (m : positive) : 2 ^ 52 <= Zpos m < 2 ^ 53 -> Zdigits2 (Zpos m) = 53.
Proof.
  intros H. simpl. rewrite digits2_pos_size. apply size_unique; [lia|]. exact H.
Qed.

(** A 53-bit mantissa at a representable exponent is left untouched. *)
Lemma bra_canonical (s : bool) (m : positive) (e : Z) :
  2 ^ 52 <= Zpos m < 2 ^ 53 -> -1074 <= e <= 971 ->
  binary_round_aux prec emax s (Zpos m) e loc_Exact = S754_finite s m e.
Proof.
  intros Hm He. pose proof (Zdigits2_53 m Hm) as Hd. simpl in Hd.
  unfold binary_round_aux, shr_fexp. simpl Zdigits2. rewrite Hd.
  rewrite fexp_eq. replace (Z.max (53 + e - 53) (-1074) - e) with 0 by lia.
  cbv beta iota zeta delta [shr shr_record_of_loc shr_m loc_of_shr_record round_nearest_even].
  simpl Zdigits2. rewrite Hd.
  rewrite fexp_eq. replace (Z.max (53 + e - 53) (-1074) - e) with 0 by lia.
  cbv beta iota zeta delta [shr shr_record_of_loc shr_m].
  change (Z.sub emax prec) with 971.
  destruct (Z.leb_spec e 971); [reflexivity|lia].
Qed.

Lemma pow2_split (a b : Z) : 0 <= a -> 0 <= b -> 2 ^ (a + b) = 2 ^ a * 2 ^ b.
Proof. intros. apply Z.pow_add_r; lia. Qed.

Lemma sf_of_u64_small (p : positive) :
  Zpos (Pos.size p) <= 53 ->
  exists M, sf_of_u64 (Zpos p) = S754_finite false M (Zpos (Pos.size p) - 53) /\
            Zpos M = Zpos p * 2 ^ (53 - Zpos (Pos.size p)).
Proof.
  intros Hs. pose proof (size_bounds p) as [Bl Bu].
  assert (Hb : forall M, Zpos M = Zpos p * 2 ^ (53 - Zpos (Pos.size p)) -> 2 ^ 52 <= Zpos M < 2 ^ 53).
  { intros M HM. rewrite HM.
    assert (E1 : 2 ^ 52 = 2 ^ (Zpos (Pos.size p) - 1) * 2 ^ (53 - Zpos (Pos.size p)))
      by (rewrite <- pow2_split by lia; f_equal; lia).
    assert (E2 : 2 ^ 53 = 2 ^ Zpos (Pos.size p) * 2 ^ (53 - Zpos (Pos.size p)))
      by (rewrite <- pow2_split by lia; f_equal; lia).
    assert (0 < 2 ^ (53 - Zpos (Pos.size p))) by (apply Z.pow_pos_nonneg; lia).
    split; nia. }
  unfold sf_of_u64, binary_normalize, binary_round. rewrite digits2_pos_size, fexp_eq.
  replace (Z.max (Zpos (Pos.size p) + 0 - 53) (-1074)) with (Zpos (Pos.size p) - 53) by lia.
  unfold shl_align. replace (Zpos (Pos.size p) - 53 - 0) with (Zpos (Pos.size p) - 53) by lia.
  destruct (Zpos (Pos.size p) - 53) as [|q|q] eqn:E.
  - exists p. assert (HM : Zpos p = Zpos p * 2 ^ (53 - Zpos (Pos.size p))).
    { replace (53 - Zpos (Pos.size p)) with 0 by lia. lia. }
    split; [|exact HM].
    apply bra_canonical; [apply Hb; exact HM|lia].
  - lia.
  - exists (Pos.iter xO p q).
    assert (HM : Zpos (Pos.iter xO p q) = Zpos p * 2 ^ (53 - Zpos (Pos.size p))).
    { rewrite Pos_iter_nat, iter_xO_Z, positive_nat_Z.
      replace (53 - Zpos (Pos.size p)) with (Zpos q) by lia. reflexivity. }
    split; [|exact HM].
    apply bra_canonical; [apply Hb; exact HM|lia].
Qed.

Lemma sf_of_u64_large (p : positive) :
  53 <= Zpos (Pos.size p) -> sf_of_u64 (Zpos p) = binary_round_aux prec emax false (Zpos p) 0 loc_Exact.
Proof.
  intros Hs. unfold sf_of_u64, binary_normalize, binary_round. rewrite digits2_pos_size, fexp_eq.
  unfold shl_align.
  destruct (Z.max (Zpos (Pos.size p) + 0 - 53) (-1074) - 0) eqn:E; try reflexivity. lia.
Qed.

Lemma shr_fexp_xO (p : positive) :
  53 <= Zpos (Pos.size p) ->
  shr_fexp prec emax (Zpos (xO p)) 0 loc_Exact = shr_fexp prec emax (Zpos p) 1 loc_Exact.
Proof.
  intros Hs. unfold shr_fexp. simpl Zdigits2. rewrite !digits2_pos_size. simpl Pos.size.
  rewrite !fexp_eq, Pos2Z.inj_succ.
  rewrite !shr_nat by lia. simpl shr_record_of_loc.
  replace (Z.to_nat (Z.max (Z.succ (Zpos (Pos.size p)) + 0 - 53) (-1074) - 0))
    with (S (Z.to_nat (Z.max (Zpos (Pos.size p) + 1 - 53) (-1074) - 1))) by lia.
  rewrite Nat.iter_succ_r. simpl shr_1. f_equal. lia.
Qed.

Lemma sf_of_u64_double (k : Z) :
  0 < k -> 2 * k < 2 ^ 64 -> sf_of_u64 (2 * k) = shift_exp 1 (sf_of_u64 k).
Proof.
  intros Hk Hu. destruct k as [|p|p]; try lia.
  change (2 * Zpos p) with (Zpos (xO p)).
  pose proof (size_bounds p) as [Bl Bu].
  assert (Hsz : Zpos (Pos.size p) <= 63).
  { destruct (Z_le_gt_dec (Zpos (Pos.size p)) 63) as [|G]; [assumption|].
    assert (2 ^ 63 <= 2 ^ (Zpos (Pos.size p) - 1)) by (apply Z.pow_le_mono_r; lia). lia. }
  destruct (Z_le_gt_dec (Zpos (Pos.size p)) 52) as [Hs|Hs].
  - destruct (sf_of_u64_small p) as [M [HB HM]]; [lia|].
    destruct (sf_of_u64_small (xO p)) as [M' [HB' HM']]; [simpl; lia|].
    rewrite HB, HB'. cbv beta iota delta [shift_exp].
    change (Pos.size (xO p)) with (Pos.succ (Pos.size p)) in HM' |- *. rewrite Pos2Z.inj_succ in HM' |- *.
    assert (M = M').
    { apply Pos2Z.inj. rewrite HM, HM', (Pos2Z.inj_xO p).
      assert (E : 2 ^ (53 - Zpos (Pos.size p)) = 2 * 2 ^ (53 - Z.succ (Zpos (Pos.size p))))
        by (rewrite <- Z.pow_succ_r by lia; f_equal; lia).
      rewrite E. ring. }
    subst M'. f_equal. lia.
  - rewrite sf_of_u64_large by (simpl; lia). rewrite sf_of_u64_large by lia.
    unfold binary_round_aux at 1. rewrite shr_fexp_xO by lia. fold (binary_round_aux prec emax false (Zpos p) 1 loc_Exact).
    change 1 with (0 + 1) at 1. apply bra_shift; [|lia].
    split; [lia|]. assert (2 ^ 63 <= 2 ^ 70) by (apply Z.pow_le_mono_r; lia).
    assert (2 ^ Zpos (Pos.size p) <= 2 ^ 63) by (apply Z.pow_le_mono_r; lia). lia.
Qed.

Lemma shr_fexp_large (p : positive) :
  53 <= Zpos (Pos.size p) ->
  shr_fexp prec emax (Zpos p) 0 loc_Exact =
  (Nat.iter (Z.to_nat (Zpos (Pos.size p) - 53)) shr_1 (Build_shr_record (Zpos p) false false),
   Zpos (Pos.size p) - 53).
Proof.
  intros Hs. unfold shr_fexp. simpl Zdigits2. rewrite digits2_pos_size, fexp_eq.
  rewrite shr_nat by lia. simpl shr_record_of_loc.
  replace (Z.max (Zpos (Pos.size p) + 0 - 53) (-1074) - 0) with (Zpos (Pos.size p) - 53) by lia.
  f_equal; lia.
Qed.

Lemma shr_fexp_53 (q : positive) (e : Z) :
  2 ^ 52 <= Zpos q < 2 ^ 53 -> -1074 <= e ->
  shr_fexp prec emax (Zpos q) e loc_Exact = (Build_shr_record (Zpos q) false false, e).
Proof.
  intros Hq He. unfold shr_fexp. rewrite Zdigits2_53 by exact Hq. rewrite fexp_eq.
  replace (Z.max (53 + e - 53) (-1074) - e) with 0 by lia. reflexivity.
Qed.

Lemma shr_fexp_carry (e : Z) :
  -1074 <= e ->
  shr_fexp prec emax (2 ^ 53) e loc_Exact = (Build_shr_record (2 ^ 52) false false, e + 1).
Proof.
  intros He. unfold shr_fexp. change (Zdigits2 (2 ^ 53)) with 54. rewrite fexp_eq.
  replace (Z.max (54 + e - 53) (-1074) - e) with 1 by lia. reflexivity.
Qed.

(** The conversion of a 64-bit integer gives a normal float with a 53-bit
    mantissa. *)
Lemma sf_of_u64_shape (n : Z) :
  0 < n < 2 ^ 64 ->
  exists M e, sf_of_u64 n = S754_finite false M e /\ 2 ^ 52 <= Zpos M < 2 ^ 53 /\ -52 <= e <= 12.
Proof.
  intros Hn. destruct n as [|p|p]; try lia.
  pose proof (size_bounds p) as [Bl Bu].
  assert (Hsz : Zpos (Pos.size p) <= 64).
  { destruct (Z_le_gt_dec (Zpos (Pos.size p)) 64) as [|G]; [assumption|].
    assert (2 ^ 64 <= 2 ^ (Zpos (Pos.size p) - 1)) by (apply Z.pow_le_mono_r; lia). lia. }
  destruct (Z_le_gt_dec (Zpos (Pos.size p)) 53) as [Hs|Hs].
  - destruct (sf_of_u64_small p Hs) as [M [HB HM]]. exists M, (Zpos (Pos.size p) - 53).
    split; [exact HB|]. split; [|lia].
    assert (E1 : 2 ^ 52 = 2 ^ (Zpos (Pos.size p) - 1) * 2 ^ (53 - Zpos (Pos.size p)))
      by (rewrite <- pow2_split by lia; f_equal; lia).
    assert (E2 : 2 ^ 53 = 2 ^ Zpos (Pos.size p) * 2 ^ (53 - Zpos (Pos.size p)))
      by (rewrite <- pow2_split by lia; f_equal; lia).
    assert (0 < 2 ^ (53 - Zpos (Pos.size p))) by (apply Z.pow_pos_nonneg; lia).
    rewrite HM. split; nia.
  - rewrite sf_of_u64_large by lia. unfold binary_round_aux. rewrite shr_fexp_large by lia.
    set (k := Zpos (Pos.size p) - 53).
    set (r := Nat.iter (Z.to_nat k) shr_1 (Build_shr_record (Zpos p) false false)).
    assert (Hr : shr_m r = Zpos p / 2 ^ k).
    { unfold r. rewrite shr_iter_m by (simpl; lia). simpl shr_m. rewrite Z2Nat.id by lia. reflexivity. }
    assert (Hk : 0 < 2 ^ k) by (apply Z.pow_pos_nonneg; lia).
    assert (Hrb : 2 ^ 52 <= shr_m r < 2 ^ 53).
    { rewrite Hr. split.
      - apply Z.div_le_lower_bound; [lia|].
        replace (2 ^ k * 2 ^ 52) with (2 ^ (Zpos (Pos.size p) - 1))
          by (unfold k; rewrite <- pow2_split by lia; f_equal; lia). lia.
      - apply Z.div_lt_upper_bound; [lia|].
        replace (2 ^ k * 2 ^ 53) with (2 ^ Zpos (Pos.size p))
          by (unfold k; rewrite <- pow2_split by lia; f_equal; lia). lia. }
    pose proof (rne_bounds (shr_m r) (loc_of_shr_record r)) as R.
    set (m2 := round_nearest_even (shr_m r) (loc_of_shr_record r)) in *.
    destruct (Z.eq_dec m2 (2 ^ 53)) as [Ec|Ec].
    + rewrite Ec, shr_fexp_carry by lia. exists (2 ^ 52)%positive, (k + 1).
      change (Z.sub emax prec) with 971. cbv beta iota zeta delta [shr_m].
      destruct (Z.leb_spec (k + 1) 971); [|lia].
      split; [reflexivity|]. split; [split; reflexivity|]. lia.
    + assert (Hq : 2 ^ 52 <= m2 < 2 ^ 53) by lia.
      destruct m2 as [|q|q] eqn:Em; try lia.
      rewrite shr_fexp_53 by lia. exists q, k.
      change (Z.sub emax prec) with 971. cbv beta iota zeta delta [shr_m].
      destruct (Z.leb_spec k 971); [|lia].
      split; [reflexivity|]. split; [exact Hq|]. lia.
Qed.

Lemma valid_normal (s : bool) (M : positive) (e : Z) :
  2 ^ 52 <= Zpos M < 2 ^ 53 -> -1074 <= e <= 971 ->
  valid_binary (S754_finite s M e) = true.
Proof.
  intros HM He. pose proof (Zdigits2_53 M HM) as Hd. simpl in Hd.
  unfold valid_binary, bounded, canonical_mantissa. rewrite Hd, fexp_eq.
  apply andb_true_intro. split; [apply Z.eqb_eq; lia|apply Z.leb_le; change (Z.sub emax prec) with 971; lia].
Qed.

Lemma new_location_zero (n : Z) : new_location n 0 = loc_Exact.
Proof. unfold new_location, new_location_even, new_location_odd. destruct (Z.even n); reflexivity. Qed.

(** [x / 2x = 0.5] for every positive finite [x]. *)
Lemma div_self_shift (M : positive) (e : Z) :
  SFdiv prec emax (S754_finite false M e) (S754_finite false M (e + 1)) =
  S754_finite false 4503599627370496 (-53).
Proof.
  unfold SFdiv, SFdiv_core_binary. cbv zeta.
  rewrite fexp_eq.
  replace (Z.min (Z.max (Zdigits2 (Zpos M) + e - (Zdigits2 (Zpos M) + (e + 1)) - 53) (-1074)) (e - (e + 1)))
    with (-54) by lia.
  replace (e - (e + 1) - -54) with 53 by lia.
  rewrite Z.shiftl_mul_pow2 by lia.
  destruct (Z.div_eucl (Zpos M * 2 ^ 53) (Zpos M)) as [q r] eqn:E.
  assert (Hq : q = Zpos M * 2 ^ 53 / Zpos M) by (unfold Z.div; rewrite E; reflexivity).
  assert (Hr : r = (Zpos M * 2 ^ 53) mod Zpos M) by (unfold Z.modulo; rewrite E; reflexivity).
  rewrite Z.mul_comm, Z.div_mul in Hq by lia. rewrite Z.mul_comm, Z.mod_mul in Hr by lia.
  subst q r. rewrite new_location_zero. reflexivity.
Qed.

Lemma core_diff (m1 m2 e1 e2 e1' e2' : Z) :
  e1 - e2 = e1' - e2' ->
  SFdiv_core_binary prec emax m1 e1 m2 e2 = SFdiv_core_binary prec emax m1 e1' m2 e2'.
Proof.
  intros H. unfold SFdiv_core_binary. cbv zeta.
  replace (Zdigits2 m1 + e1 - (Zdigits2 m2 + e2)) with (Zdigits2 m1 + e1' - (Zdigits2 m2 + e2')) by lia.
  rewrite H. reflexivity.
Qed.

(** Dividing [x / 2] by [y] is dividing [x] by [2y]: the quotient only
    sees the difference of the exponents. *)
Lemma div_unshift (s : bool) (m : positive) (e : Z) (y : spec_float) :
  SFdiv prec emax (S754_finite s m (e - 1)) y = SFdiv prec emax (S754_finite s m e) (shift_exp 1 y).
Proof.
  destruct y as [sy|sy| |sy my ey]; try reflexivity.
  unfold SFdiv, shift_exp. rewrite (core_diff _ _ (e - 1) ey e (ey + 1)) by lia. reflexivity.
Qed.

(** Scaling the numerator by two scales a normal quotient by two. *)
Lemma div_shift_num (sx sy : bool) (mx my : positive) (ex ey : Z) :
  2 ^ 52 <= Zpos mx < 2 ^ 53 -> 2 ^ 52 <= Zpos my < 2 ^ 53 -> -960 <= ex - ey <= 850 ->
  SFdiv prec emax (S754_finite sx mx (ex + 1)) (S754_finite sy my ey) =
  shift_exp 1 (SFdiv prec emax (S754_finite sx mx ex) (S754_finite sy my ey)).
Proof.
  intros Hx Hy He. unfold SFdiv, SFdiv_core_binary. cbv zeta.
  rewrite !Zdigits2_53 by assumption. rewrite !fexp_eq.
  replace (Z.min (Z.max (53 + (ex + 1) - (53 + ey) - 53) (-1074)) (ex + 1 - ey))
    with ((ex - ey - 53) + 1) by lia.
  replace (Z.min (Z.max (53 + ex - (53 + ey) - 53) (-1074)) (ex - ey))
    with (ex - ey - 53) by lia.
  replace (ex + 1 - ey - (ex - ey - 53 + 1)) with 53 by lia.
  replace (ex - ey - (ex - ey - 53)) with 53 by lia.
  rewrite Z.shiftl_mul_pow2 by lia.
  destruct (Z.div_eucl (Zpos mx * 2 ^ 53) (Zpos my)) as [q r] eqn:E.
  assert (Hq : q = Zpos mx * 2 ^ 53 / Zpos my) by (unfold Z.div; rewrite E; reflexivity).
  apply bra_shift; [|lia].
  rewrite Hq. split; [apply Z.div_pos; lia|].
  apply Z.div_lt_upper_bound; [lia|].
  assert (2 ^ 54 <= 2 ^ 70) by (apply Z.pow_le_mono_r; lia).
  change (2 ^ 53) with (2 * 2 ^ 52) at 1. nia.
Qed.

(** Multiplying a normal float by a power of two, exactly. *)
Lemma mul_pow2 (s : bool) (m : positive) (e f : Z) :
  2 ^ 52 <= Zpos m < 2 ^ 53 -> -1074 <= e + f + 52 <= 971 ->
  SFmul prec emax (S754_finite s m e) (S754_finite false 4503599627370496 f) =
  S754_finite s m (e + f + 52).
Proof.
  intros Hm He. unfold SFmul. rewrite Bool.xorb_false_r.
  assert (HP : (m * 4503599627370496)%positive = Nat.iter 52 xO m).
  { apply Pos2Z.inj. rewrite iter_xO_Z, Pos2Z.inj_mul. reflexivity. }
  assert (Hd : Zdigits2 (Zpos (m * 4503599627370496)) = 105).
  { simpl Zdigits2. rewrite digits2_pos_size. apply size_unique; [lia|].
    rewrite Pos2Z.inj_mul. change (Zpos 4503599627370496) with (2 ^ 52).
    change (2 ^ (105 - 1)) with (2 ^ 52 * 2 ^ 52). change (2 ^ 105) with (2 ^ 53 * 2 ^ 52). nia. }
  unfold binary_round_aux at 1. unfold shr_fexp at 1. rewrite Hd, fexp_eq.
  rewrite shr_nat by lia.
  replace (Z.to_nat (Z.max (105 + (e + f) - 53) (-1074) - (e + f))) with 52%nat by lia.
  simpl shr_record_of_loc. rewrite HP, shr_iter_exact.
  replace (e + f + (Z.max (105 + (e + f) - 53) (-1074) - (e + f))) with (e + f + 52) by lia.
  cbv beta iota zeta delta [shr_m loc_of_shr_record round_nearest_even].
  rewrite shr_fexp_53 by lia.
  cbv beta iota zeta delta [shr_m].
  change (Z.sub emax prec) with 971.
  destruct (Z.leb_spec (e + f + 52) 971); [reflexivity|lia].
Qed.

End Binary64.
Import Binary64.

Lemma valid_normal_inv (s : bool) (m : positive) (e : Z) :
  valid_binary (S754_finite s m e) = true -> -1073 <= e ->
  2 ^ 52 <= Zpos m < 2 ^ 53 /\ e <= 971.
Proof.
  intros Hv He. unfold valid_binary, bounded, canonical_mantissa in Hv.
  apply andb_prop in Hv as [Hc Hb]. apply Z.eqb_eq in Hc. apply Z.leb_le in Hb.
  rewrite fexp_eq, digits2_pos_size in Hc.
  assert (Hs : Zpos (Pos.size m) = 53) by lia.
  pose proof (size_bounds m) as B. rewrite Hs in B. split; [exact B|exact Hb].
Qed.

Lemma u64_to_f64_spec (n : Z) : 0 < n < 2 ^ 64 -> Prim2SF (u64_to_f64 n) = sf_of_u64 n.
Proof.
  intros Hn. unfold u64_to_f64. apply Prim2SF_SF2Prim.
  destruct (sf_of_u64_shape n Hn) as [M [e [HB [HM He]]]].
  rewrite HB. apply valid_normal; [exact HM|lia].
Qed.

Lemma Prim2SF_1e6 : Prim2SF (powi 10 TOKEN_DECIMALS) = S754_finite false 8589934592000000 (-33).
Proof. reflexivity. Qed.

Lemma Prim2SF_half : Prim2SF 0.5%float = S754_finite false 4503599627370496 (-53).
Proof. reflexivity. Qed.

Lemma Prim2SF_two : Prim2SF 2%float = S754_finite false 4503599627370496 (-51).
Proof. reflexivity. Qed.

Lemma one_minus_half : (1 - 0.5)%float = 0.5%float.
Proof. reflexivity. Qed.

(** Selling [k] out of [2k] raw units gives a sell ratio of exactly 0.5. *)
Lemma half_sell_ratio (k : Z) :
  0 < k -> 2 * k < 2 ^ 64 -> (u64_to_f64 k / u64_to_f64 (2 * k))%float = 0.5%float.
Proof.
  intros Hk Hu. apply Prim2SF_inj. rewrite div_spec, !u64_to_f64_spec by lia.
  rewrite sf_of_u64_double by lia.
  destruct (sf_of_u64_shape k ltac:(lia)) as [M [e [HB _]]]. rewrite HB.
  unfold SF64div. simpl shift_exp. rewrite div_self_shift. reflexivity.
Qed.

(** The displayed amount of [2k] raw units is twice that of [k]. *)
Lemma actual_amount_double (k : Z) :
  0 < k -> 2 * k < 2 ^ 64 ->
  Prim2SF (actual_amount (2 * k)) = shift_exp 1 (Prim2SF (actual_amount k)).
Proof.
  intros Hk Hu. unfold actual_amount. rewrite !div_spec, !u64_to_f64_spec by lia.
  rewrite sf_of_u64_double by lia. rewrite Prim2SF_1e6. unfold SF64div.
  destruct (sf_of_u64_shape k ltac:(lia)) as [M [e [HB [HM He]]]]. rewrite HB.
  simpl shift_exp. apply div_shift_num; [exact HM|vm_compute; split; congruence|lia].
Qed.

(** Halving a zero or not-too-small cost and doubling it back is exact. *)
Lemma half_cost_exact (c : float) :
  normal_or_zero c = true -> (c * 0.5 * 2)%float = c.
Proof.
  intros Hc. apply Prim2SF_inj. rewrite !mul_spec, Prim2SF_half, Prim2SF_two.
  unfold normal_or_zero in Hc. pose proof (Prim2SF_valid c) as Hv.
  destruct (Prim2SF c) as [s|s| |s m e]; try discriminate Hc.
  - destruct s; reflexivity.
  - apply Z.leb_le in Hc. destruct (valid_normal_inv s m e Hv Hc) as [HM He].
    unfold SF64mul. rewrite mul_pow2 by lia. rewrite mul_pow2 by lia. f_equal. lia.
Qed.

(** The average cost is unchanged when the cost is halved and the amount
    goes from [2k] to [k]. *)
Lemma half_avg_exact (c : float) (k : Z) :
  normal_or_zero c = true -> 0 < k -> 2 * k < 2 ^ 64 ->
  (c * 0.5 / actual_amount k)%float = (c / actual_amount (2 * k))%float.
Proof.
  intros Hc Hk Hu. apply Prim2SF_inj. rewrite !div_spec, mul_spec, Prim2SF_half.
  rewrite actual_amount_double by assumption.
  unfold normal_or_zero in Hc. pose proof (Prim2SF_valid c) as Hv.
  destruct (Prim2SF c) as [s|s| |s m e]; try discriminate Hc.
  - destruct (Prim2SF (actual_amount k)) as [|[]| |[] ? ?]; destruct s; reflexivity.
  - apply Z.leb_le in Hc. destruct (valid_normal_inv s m e Hv Hc) as [HM He].
    unfold SF64mul, SF64div. rewrite mul_pow2 by lia.
    replace (e + -53 + 52) with (e - 1) by lia. apply div_unshift.
Qed.

(* ------------------------------------------------------------------ *)
(** ** C8: selling exactly half *)

(** C8 (counterexample). After 36 rounds of buying and selling back
    [U64_MAX - 2*10^10] raw units at price 0, the position still holds
    2*10^10 raw units but its cost is subnormal; selling half of it keeps a
    cost that is not half of the former one (doubling it back does not give
    the old cost). *)
Lemma C8_subnormal_cost_not_halved :
  let st := fst (run empty_monitor (tiny_cost_history 36)) in
  exists h h',
    holdings st !! "T" = Some h /\ amount h = 20000000000 /\
    holdings (fst (update_holdings true st "T" false 10000000000 0%float)) !! "T" = Some h' /\
    amount h' = 10000000000 /\
    PrimFloat.eqb (total_cost h' * 2) (total_cost h) = false.
Proof.
  intros st. vm_compute. do 2 eexists.
  split; [reflexivity|]. split; [reflexivity|].
  split; [reflexivity|]. split; reflexivity.
Qed.

(** C8 (amended). For a held position of [2k] raw units, [k] at least
    [MIN_HOLDING_AMOUNT] (the remaining half is kept), whose accumulated
    cost is zero or at least 2^-1021 in magnitude, selling [k] raw units
    keeps the position with [k] raw units and cost [cost * 0.5], which is
    exactly half (doubling it gives the old cost back), and the average
    cost is unchanged. *)
Theorem C8_half_sell_exact :
  forall (send_ok : bool) (st : Monitor) (mnt : string) (price : float)
         (h : TokenHolding) (k : Z),
    holdings st !! mnt = Some h ->
    amount h = 2 * k ->
    MIN_HOLDING_AMOUNT <= k ->
    2 * k <= U64_MAX ->
    normal_or_zero (total_cost h) = true ->
    exists h',
      holdings (fst (update_holdings send_ok st mnt false k price)) !! mnt = Some h' /\
      amount h' = k /\
      total_cost h' = (total_cost h * 0.5)%float /\
      (total_cost h' * 2)%float = total_cost h /\
      avg_price h' = avg_price h.
Proof.
  intros send_ok st mnt price h k Hh Ha Hmin Hmax Hc.
  unfold MIN_HOLDING_AMOUNT in Hmin. unfold U64_MAX in Hmax.
  unfold update_holdings. cbv zeta. rewrite Hh. cbn iota.
  rewrite Ha, half_sell_ratio, one_minus_half by lia.
  destruct (check_and_send_alert _ _ _ _) as [[r alerted'] evs].
  unfold saturating_sub. cbn [amount].
  replace (Z.max (2 * k - k) 0) with k by lia.
  destruct (Z.ltb_spec k MIN_HOLDING_AMOUNT) as [Hlt|_]; [unfold MIN_HOLDING_AMOUNT in Hlt; lia|].
  cbn [fst holdings]. rewrite lookup_insert_eq.
  eexists. split; [reflexivity|]. cbn [amount total_cost].
  split; [reflexivity|]. split; [reflexivity|]. split; [apply half_cost_exact; exact Hc|].
  unfold avg_price. cbn [amount total_cost]. rewrite Ha.
  destruct (Z.eqb_spec k 0) as [E|_]; [lia|].
  destruct (Z.eqb_spec (2 * k) 0) as [E|_]; [lia|].
  apply half_avg_exact; [exact Hc|lia|lia].
Qed.

Lemma C8_half_sell_exact_witness :
  let st := fst (run empty_monitor [OwnTrade "T" true 20000 1%float true]) in
  exists h',
    holdings (fst (update_holdings true st "T" false 10000 2%float)) !! "T" = Some h' /\
    amount h' = 10000 /\
    total_cost h' = ((actual_amount 20000 * 1) * 0.5)%float /\
    (total_cost h' * 2)%float = (actual_amount 20000 * 1)%float /\
    avg_price h' =
      avg_price {| amount := 20000; mint := "T"; total_cost := (actual_amount 20000 * 1)%float;
                   current_price := 1%float |}.
Proof.
  intros st.
  assert (Hh : holdings st !! "T" =
               Some {| amount := 20000; mint := "T"; total_cost := (actual_amount 20000 * 1)%float;
                       current_price := 1%float |}) by (vm_compute; reflexivity).
  apply (C8_half_sell_exact true st "T" 2%float _ 10000 Hh).
  - reflexivity.
  - unfold MIN_HOLDING_AMOUNT. lia.
  - unfold U64_MAX. lia.
  - vm_compute. reflexivity.
Defined.
